(** * gogacon: the configuration manager, embedded and verified

    The Go package [gogacon] has three parts: [serializer.go] (the
    [Serializer] interface), the file that declares [ConfigError], and
    [manager.go] (the [ConfigManager]).  This development embeds them
    shallowly: Go strings are [string], byte slices are lists of bytes,
    the [error] interface is an inductive type, a nil interface or pointer
    is [None], and the code that talks to the operating system runs in a
    small state-and-panic monad over a world made of a file system, the
    process environment, a heap of serializer objects and a log of the
    calls that crossed the package boundary. *)

From Stdlib Require Import ZArith NArith Ascii String.
From stdpp Require Import base option list strings gmap.

Local Open Scope string_scope.
Local Open Scope list_scope.

(** ** Strings and bytes *)

Definition bytes := list Byte.byte.

(** Go's [[]byte(s)] conversion of a string. *)
Definition bytes_of_string (s : string) : bytes := String.list_byte_of_string s.

(** The double quote character, U+0022. *)
Definition dquote : ascii := "034"%char.

(** ** [strconv.Quote], which implements the [%q] verb of [fmt] on strings

    The model is exact on 7-bit input: the quote and the backslash get a
    backslash, printable characters stand for themselves, the seven
    control characters with a mnemonic use it and any other control
    character is written [\xNN].  Bytes above 0x7f are passed through,
    which is what Go does for well-formed UTF-8 text made of printable
    runes. *)

Definition lowerhex (n : N) : ascii :=
  match n with
  | 0 => "0" | 1 => "1" | 2 => "2" | 3 => "3" | 4 => "4" | 5 => "5"
  | 6 => "6" | 7 => "7" | 8 => "8" | 9 => "9" | 10 => "a" | 11 => "b"
  | 12 => "c" | 13 => "d" | 14 => "e" | _ => "f"
  end%N%char.

(** The backslash, U+005C. *)
Definition backslash : ascii := "092"%char.

Definition esc (c : ascii) : string := String backslash (String c EmptyString).

Definition appendEscapedRune (c : ascii) : string :=
  let r := N_of_ascii c in
  if (r =? 34)%N || (r =? 92)%N then esc c
  else if ((32 <=? r) && (r <? 127))%N then String c EmptyString
  else match r with
       | 7 => esc "a" | 8 => esc "b" | 12 => esc "f" | 10 => esc "n"
       | 13 => esc "r" | 9 => esc "t" | 11 => esc "v"
       | _ =>
           if (r <? 32)%N || (r =? 127)%N
           then esc "x" +:+ String (lowerhex (N.shiftr r 4))
                            (String (lowerhex (N.land r 15)) EmptyString)
           else String c EmptyString
       end%N.

Fixpoint quoteBody (s : string) : string :=
  match s with
  | EmptyString => EmptyString
  | String c rest => appendEscapedRune c +:+ quoteBody rest
  end.

Definition strconv_Quote (s : string) : string :=
  String dquote (quoteBody s +:+ String dquote EmptyString).

(** ** Errors: the ConfigError type and its constructor

    A Go [error] is an interface value.  Two dynamic types matter here:
    the package's own [ConfigError] struct, and everything else, kept as
    [errorString] with the text its [Error] method returns (this is what
    [errors.New] and a [fmt.Errorf] without verbs build, and it stands for
    the errors of the [os] package as well).  A nil [error] is [None]. *)

Inductive error : Type :=
| errorString (s : string)
| configError (c : ConfigError)
with ConfigError : Type :=
| Build_ConfigError (Operation : string) (Path : string) (Err : option error).

Definition Operation (e : ConfigError) : string :=
  let 'Build_ConfigError op _ _ := e in op.
Definition Path (e : ConfigError) : string :=
  let 'Build_ConfigError _ p _ := e in p.
Definition Err (e : ConfigError) : option error :=
  let 'Build_ConfigError _ _ err := e in err.

Definition fmt_Errorf (msg : string) : error := errorString msg.

(** [ConfigError.Error] together with the dynamic dispatch [err.Error()].
    [fmt] prints an error operand of [%s] and [%v] through its [Error]
    method, and a nil operand as [%!s(<nil>)] and [<nil>]. *)
Fixpoint error_Error (e : error) : string :=
  match e with
  | errorString s => s
  | configError (Build_ConfigError op path err) =>
      if bool_decide (path ≠ EmptyString) then
        "config error: " +:+ op +:+ ": " +:+
          match err with
          | Some cause => error_Error cause
          | None => "%!s(<nil>)"
          end
      else
        "config error: " +:+ op +:+ " " +:+ strconv_Quote path +:+ ": " +:+
          match err with
          | Some cause => error_Error cause
          | None => "<nil>"
          end
  end.

Definition ConfigError_Error (e : ConfigError) : string :=
  error_Error (configError e).

Definition ConfigError_Unwrap (e : ConfigError) : option error := Err e.

Definition NewError (operation : string) (path : string) (err : option error)
  : ConfigError :=
  Build_ConfigError operation path err.

(** ** The world the package runs in *)

(** Serializer objects live on a heap and are named by their address.  A
    [Serializer] interface value is nil or the address of an object. *)
Definition loc := nat.
Definition Serializer := option loc.

(** Unix permission bits, written in octal in the source. *)
Definition perm_0755 : Z := 7 * 64 + 5 * 8 + 5.
Definition perm_0644 : Z := 6 * 64 + 4 * 8 + 4.

(** One entry per call that leaves the package, with what came back. *)
Inductive Event : Type :=
| EvStat (name : string) (err : option error)
| EvMkdirAll (path : string) (perm : Z) (err : option error)
| EvWriteFile (name : string) (data : bytes) (perm : Z) (err : option error)
| EvReadFile (name : string) (data : bytes) (err : option error)
| EvUserHomeDir (home : string) (err : option error)
| EvMarshal (recv : loc) (data : bytes) (err : option error)
| EvUnmarshal (recv : loc) (data : bytes) (err : option error).

(** ** Reading the log *)

(** The home directory was asked for. *)
Definition is_home_event (ev : Event) : bool :=
  match ev with
  | EvUserHomeDir _ _ => true
  | _ => false
  end.

(** A file was written, and the write went through. *)
Definition is_creation (ev : Event) : bool :=
  match ev with
  | EvWriteFile _ _ _ None => true
  | _ => false
  end.

Fixpoint creations (evs : list Event) : nat :=
  match evs with
  | [] => 0
  | ev :: rest => (if is_creation ev then 1 else 0) + creations rest
  end.

(** The part of the [os] and [path/filepath] packages the manager calls,
    over an abstract file-system state.  [os.Stat] and [os.ReadFile] only
    look; [os.MkdirAll] and [os.WriteFile] may change the state even when
    they fail. *)
Class OS (FS : Type) := {
  sys_Stat : string → FS → option error;
  sys_MkdirAll : string → Z → FS → FS * option error;
  sys_WriteFile : string → bytes → Z → FS → FS * option error;
  sys_ReadFile : string → FS → bytes * option error;
  filepath_Dir : string → string;
  filepath_Join : list string → string;
}.

(** What the theorems below ask of a file system: a file that was written
    can be found and read back, and the empty name opens nothing. *)
Class OSLaws (FS : Type) `{OS FS} : Prop := {
  write_then_read : ∀ name data perm fs fs',
    sys_WriteFile name data perm fs = (fs', None) →
    sys_ReadFile name fs' = (data, None);
  write_then_stat : ∀ name data perm fs fs',
    sys_WriteFile name data perm fs = (fs', None) →
    sys_Stat name fs' = None;
  write_empty_name : ∀ data perm fs,
    (sys_WriteFile "" data perm fs).2 ≠ None;
}.

(** The two methods of the [Serializer] interface (serializer.go), as the
    implementing objects provide them.  Both may change their receiver;
    they are taken to return, and to act on their receiver alone: an
    implementation does not reach into the file system, the environment
    or another object. *)
Class SerializerImpl (Obj : Type) := {
  impl_Marshal : Obj → Obj * (bytes * option error);
  impl_Unmarshal : Obj → bytes → Obj * option error;
}.

Record World (FS Obj : Type) : Type := mkWorld {
  w_fs : FS;
  w_home : string;
  w_heap : gmap loc Obj;
  w_trace : list Event;
}.
Arguments mkWorld {FS Obj}.
Arguments w_fs {FS Obj}.
Arguments w_home {FS Obj}.
Arguments w_heap {FS Obj}.
Arguments w_trace {FS Obj}.

(** ** A state monad with panics *)

Inductive Outcome (A : Type) : Type :=
| Ret (a : A)
| Panic (msg : string).
Arguments Ret {A}.
Arguments Panic {A}.

Definition M (FS Obj : Type) (A : Type) : Type :=
  World FS Obj → Outcome A * World FS Obj.

#[export] Instance M_ret {FS Obj} : MRet (M FS Obj) :=
  λ A a w, (Ret a, w).

#[export] Instance M_bind {FS Obj} : MBind (M FS Obj) :=
  λ A B k m w,
    match m w with
    | (Ret a, w') => k a w'
    | (Panic msg, w') => (Panic msg, w')
    end.

Definition nil_dereference : string :=
  "runtime error: invalid memory address or nil pointer dereference".

Section Manager.
Context {FS : Type} `{!OS FS} {Obj : Type} `{!SerializerImpl Obj}.

Abbreviation World := (World FS Obj).
Abbreviation M := (M FS Obj).

Definition log (ev : Event) (w : World) : World :=
  mkWorld (w_fs w) (w_home w) (w_heap w) (w_trace w ++ [ev]).

Definition set_fs (fs : FS) (w : World) : World :=
  mkWorld fs (w_home w) (w_heap w) (w_trace w).

Definition set_obj (l : loc) (o : Obj) (w : World) : World :=
  mkWorld (w_fs w) (w_home w) (<[l := o]> (w_heap w)) (w_trace w).

(** *** Calls into package os *)

Definition os_Stat (name : string) : M (option error) :=
  λ w, let err := sys_Stat name (w_fs w) in
       (Ret err, log (EvStat name err) w).

Definition os_MkdirAll (path : string) (perm : Z) : M (option error) :=
  λ w, let '(fs', err) := sys_MkdirAll path perm (w_fs w) in
       (Ret err, log (EvMkdirAll path perm err) (set_fs fs' w)).

Definition os_WriteFile (name : string) (data : bytes) (perm : Z)
  : M (option error) :=
  λ w, let '(fs', err) := sys_WriteFile name data perm (w_fs w) in
       (Ret err, log (EvWriteFile name data perm err) (set_fs fs' w)).

Definition os_ReadFile (name : string) : M (bytes * option error) :=
  λ w, let '(data, err) := sys_ReadFile name (w_fs w) in
       (Ret (data, err), log (EvReadFile name data err) w).

(** [os.UserHomeDir] on Unix: the value of [$HOME], an error when it is
    empty or unset. *)
Definition os_UserHomeDir : M (string * option error) :=
  λ w, let r := if bool_decide (w_home w ≠ "")
                then (w_home w, None)
                else ("", Some (errorString "$HOME is not defined")) in
       (Ret r, log (EvUserHomeDir r.1 r.2) w).

(** *** Method calls through the Serializer interface

    A call on a nil interface, or on an address that holds no object (a
    typed nil pointer), panics. *)

Definition Serializer_Marshal (s : Serializer) : M (bytes * option error) :=
  λ w, match s with
       | None => (Panic nil_dereference, w)
       | Some l =>
           match w_heap w !! l with
           | None => (Panic nil_dereference, w)
           | Some o =>
               let '(o', (data, err)) := impl_Marshal o in
               (Ret (data, err), log (EvMarshal l data err) (set_obj l o' w))
           end
       end.

Definition Serializer_Unmarshal (s : Serializer) (data : bytes)
  : M (option error) :=
  λ w, match s with
       | None => (Panic nil_dereference, w)
       | Some l =>
           match w_heap w !! l with
           | None => (Panic nil_dereference, w)
           | Some o =>
               let '(o', err) := impl_Unmarshal o data in
               (Ret err, log (EvUnmarshal l data err) (set_obj l o' w))
           end
       end.

(** *** manager.go *)

Record Defaults : Type := {
  AppName : string;
  DefaultConfigValues : Serializer;
}.

Record ConfigManager : Type := {
  defaults : Defaults;
  filePath : string;
}.

(** The receiver [cm *ConfigManager] is passed by value; a method that
    assigns to one of its fields returns the updated manager. *)

Definition NewConfigManager (d : Defaults)
  : M (option ConfigManager * option error) :=
  if bool_decide (AppName d = "") then
    mret (None, Some (configError
      (NewError "initialization" ""
         (Some (fmt_Errorf "AppName must be specified")))))
  else if bool_decide (DefaultConfigValues d = None) then
    mret (None, Some (configError
      (NewError "initialization" ""
         (Some (fmt_Errorf "DefaultConfigValues must be specified")))))
  else
    mret (Some {| defaults := d; filePath := "" |}, None).

Definition buildPath (cm : ConfigManager) : M (string * option error) :=
  '(home, err) ← os_UserHomeDir;
  if err is Some e then mret ("", Some e)
  else mret (filepath_Join
               [home; ".config"; AppName (defaults cm); "default.conf"],
             None).

Definition ensureConfigFile (cm : ConfigManager) (path : string)
  : M (option error) :=
  err ← os_Stat path;
  if err is None then mret None
  else
    let dir := filepath_Dir path in
    err ← os_MkdirAll dir perm_0755;
    if err is Some e then
      mret (Some (configError (NewError "create config directory" dir (Some e))))
    else
      '(data, err) ← Serializer_Marshal (DefaultConfigValues (defaults cm));
      if err is Some e then
        mret (Some (configError (NewError "marshal default config" path (Some e))))
      else
        err ← os_WriteFile path data perm_0644;
        if err is Some e then
          mret (Some (configError (NewError "create default config" path (Some e))))
        else mret None.

Definition LoadConfig (cm : ConfigManager) (filePath : string)
    (target : Serializer) : M (ConfigManager * option error) :=
  if bool_decide (filePath = "") then
    mret (cm, Some (fmt_Errorf "no path provided"))
  else
    err ← ensureConfigFile cm filePath;
    if err is Some e then mret (cm, Some e)
    else
      '(bt, err) ← os_ReadFile filePath;
      if err is Some e then
        mret (cm, Some (configError (NewError "read config" filePath (Some e))))
      else
        err ← Serializer_Unmarshal target bt;
        if err is Some e then
          mret (cm, Some (configError
                            (NewError "unmarshal config" filePath (Some e))))
        else
          mret (Build_ConfigManager (defaults cm) filePath, None).

Definition SaveConfig (cm : ConfigManager) (config : Serializer)
  : M (option error) :=
  '(bt, err) ← Serializer_Marshal config;
  if err is Some e then
    mret (Some (configError (NewError "marshal config" "" (Some e))))
  else
    err ← os_WriteFile (filePath cm) bt perm_0644;
    if err is Some e then
      mret (Some (configError (NewError "save config" (filePath cm) (Some e))))
    else mret None.

(** *** Sequences of calls on the public surface

    What a client can do with the package: build a manager, then load and
    save any number of times.  A panic ends the sequence. *)

Inductive Call : Type :=
| CallLoad (filePath : string) (target : Serializer)
| CallSave (config : Serializer).

Fixpoint run_calls (cm : ConfigManager) (cs : list Call)
  : M (ConfigManager * list (option error)) :=
  match cs with
  | [] => mret (cm, [])
  | CallLoad filePath target :: rest =>
      '(cm', err) ← LoadConfig cm filePath target;
      '(cm'', errs) ← run_calls cm' rest;
      mret (cm'', err :: errs)
  | CallSave config :: rest =>
      err ← SaveConfig cm config;
      '(cm', errs) ← run_calls cm rest;
      mret (cm', err :: errs)
  end.

Definition session (d : Defaults) (cs : list Call)
  : M (option error * list (option error)) :=
  '(cm, err) ← NewConfigManager d;
  match cm with
  | None => mret (err, [])
  | Some cm => '(_, errs) ← run_calls cm cs; mret (err, errs)
  end.


(** Every step of a load succeeds: the path is not empty, the file is
    there or gets created, it is read, and the target decodes it. *)
Definition load_steps_succeed (cm : ConfigManager) (filePath : string)
    (target : Serializer) (w : World) : Prop :=
  filePath ≠ "" ∧
  ∃ w1 bt t ot,
    ensureConfigFile cm filePath w = (Ret None, w1)
    ∧ sys_ReadFile filePath (w_fs w1) = (bt, None)
    ∧ target = Some t
    ∧ w_heap w1 !! t = Some ot
    ∧ (impl_Unmarshal ot bt).2 = None.

(** The same world with another value of [$HOME]. *)
Definition set_home (home : string) (w : World) : World :=
  mkWorld (w_fs w) home (w_heap w) (w_trace w).

(** A computation that never looks at [$HOME]: run from a world with
    another home directory it gives the same result and the same world up
    to that directory, and it logs no request for the home directory. *)
Definition ignores_home {A : Type} (m : M A) : Prop :=
  ∀ w,
    (∀ home, m (set_home home w) = ((m w).1, set_home home (m w).2))
    ∧ ∃ evs, w_trace (m w).2 = w_trace w ++ evs
             ∧ Forall (λ ev, is_home_event ev = false) evs.

End Manager.

(** ** MockSerializer, the serializer of the package's tests *)

(** Go's [int] on a 64-bit platform. *)
Definition wrap_int (z : Z) : Z := ((z + 2 ^ 63) `mod` 2 ^ 64 - 2 ^ 63)%Z.

Record MockSerializer : Type := {
  MarshalData : bytes;
  MarshalErr : option error;
  UnmarshalErr : option error;
  UnmarshalCalls : Z;
}.

Definition MockSerializer_Marshal (m : MockSerializer)
  : MockSerializer * (bytes * option error) :=
  (m, (MarshalData m, MarshalErr m)).

Definition MockSerializer_Unmarshal (m : MockSerializer) (data : bytes)
  : MockSerializer * option error :=
  ({| MarshalData := MarshalData m;
      MarshalErr := MarshalErr m;
      UnmarshalErr := UnmarshalErr m;
      UnmarshalCalls := wrap_int (UnmarshalCalls m + 1) |},
   UnmarshalErr m).

#[export] Instance MockSerializer_impl : SerializerImpl MockSerializer := {
  impl_Marshal := MockSerializer_Marshal;
  impl_Unmarshal := MockSerializer_Unmarshal;
}.

(** ** MemFS, a small in-memory file system

    Names map to files or directories.  [faulty] holds the names whose
    metadata cannot be read: [stat] fails on them with an I/O error until
    the file is written anew.  Paths are taken to be clean, so [Dir] and
    [Join] do no normalisation beyond trailing separators. *)

Inductive node : Type :=
| File (content : bytes)
| Dir.

Record MemFS : Type := {
  entries : gmap string node;
  faulty : gset string;
}.

Definition slash : ascii := "/"%char.

Fixpoint drop_until_slash (r : list ascii) : list ascii :=
  match r with
  | [] => []
  | c :: rest => if Ascii.eqb c slash then r else drop_until_slash rest
  end.

Fixpoint drop_slashes (r : list ascii) : list ascii :=
  match r with
  | [] => []
  | c :: rest => if Ascii.eqb c slash then drop_slashes rest else r
  end.

Definition mem_Dir (path : string) : string :=
  match drop_until_slash (rev (list_ascii_of_string path)) with
  | [] => "."
  | r1 => match drop_slashes r1 with
          | [] => "/"
          | r2 => string_of_list_ascii (rev r2)
          end
  end.

Fixpoint join_with_slash (elem : list string) : string :=
  match elem with
  | [] => ""
  | [e] => e
  | e :: rest => e +:+ "/" +:+ join_with_slash rest
  end.

Definition mem_Join (elem : list string) : string :=
  join_with_slash (filter (λ e, e ≠ "") elem).

Definition os_error (op name reason : string) : option error :=
  Some (errorString (op +:+ " " +:+ name +:+ ": " +:+ reason)).

Definition mem_Stat (name : string) (fs : MemFS) : option error :=
  if bool_decide (name ∈ faulty fs) then
    os_error "stat" name "input/output error"
  else if entries fs !! name is Some _ then None
  else os_error "stat" name "no such file or directory".

Definition mem_MkdirAll (path : string) (perm : Z) (fs : MemFS)
  : MemFS * option error :=
  match entries fs !! path with
  | Some (File _) => (fs, os_error "mkdir" path "not a directory")
  | _ => ({| entries := <[path := Dir]> (entries fs); faulty := faulty fs |},
          None)
  end.

Definition has_dir (dir : string) (fs : MemFS) : bool :=
  bool_decide (dir = "." ∨ dir = "/")
  || (if entries fs !! dir is Some Dir then true else false).

Definition mem_WriteFile (name : string) (data : bytes) (perm : Z)
    (fs : MemFS) : MemFS * option error :=
  if bool_decide (name = "") then
    (fs, os_error "open" name "no such file or directory")
  else if entries fs !! name is Some Dir then
    (fs, os_error "open" name "is a directory")
  else if has_dir (mem_Dir name) fs then
    ({| entries := <[name := File data]> (entries fs);
        faulty := faulty fs ∖ {[name]} |}, None)
  else (fs, os_error "open" name "no such file or directory").

Definition mem_ReadFile (name : string) (fs : MemFS) : bytes * option error :=
  match entries fs !! name with
  | Some (File content) => (content, None)
  | Some Dir => ([], os_error "read" name "is a directory")
  | None => ([], os_error "open" name "no such file or directory")
  end.

#[export] Instance MemFS_OS : OS MemFS := {
  sys_Stat := mem_Stat;
  sys_MkdirAll := mem_MkdirAll;
  sys_WriteFile := mem_WriteFile;
  sys_ReadFile := mem_ReadFile;
  filepath_Dir := mem_Dir;
  filepath_Join := mem_Join;
}.

(** ** Scenarios over MemFS and MockSerializer, after the package's tests *)

Definition mock (data : string) (merr uerr : option error) : MockSerializer :=
  {| MarshalData := bytes_of_string data;
     MarshalErr := merr;
     UnmarshalErr := uerr;
     UnmarshalCalls := 0 |}.

(** A manager for the application [testapp] whose default values are the
    object at address 0. *)
Definition testapp : ConfigManager :=
  {| defaults := {| AppName := "testapp"; DefaultConfigValues := Some 0 |};
     filePath := "" |}.

(** As in TestLoadConfig_InvalidConfig: a file that holds [invalid data],
    defaults that encode to [default data] and a target whose decode
    fails with [parse error]. *)
Definition invalid_config_fs : MemFS :=
  {| entries :=
       <["/etc/app.conf" := File (bytes_of_string "invalid data")]>
         (<["/etc" := Dir]> ∅);
     faulty := ∅ |}.

Definition invalid_config_world : World MemFS MockSerializer :=
  mkWorld invalid_config_fs "/home/user"
    (<[1 := mock "" None (Some (errorString "parse error"))]>
       (<[0 := mock "default data" None None]> ∅))
    [].

(** As in TestConfigManager_FirstRun: no file yet, defaults that encode to
    [config data], and an empty target at address 1. *)
Definition empty_fs : MemFS := {| entries := ∅; faulty := ∅ |}.

Definition first_run_path : string := "/home/user/.config/testapp/default.conf".

Definition first_run_world : World MemFS MockSerializer :=
  mkWorld empty_fs "/home/user"
    (<[1 := mock "" None None]> (<[0 := mock "config data" None None]> ∅))
    [].

(** The same first run with defaults whose encode fails. *)
Definition failing_defaults_world : World MemFS MockSerializer :=
  mkWorld empty_fs "/home/user"
    (<[1 := mock "" None None]>
       (<[0 := mock "config data" (Some (errorString "encode failed")) None]> ∅))
    [].

(** As in TestLoadConfig_ExistingConfig: the file is there and holds
    [existing config]. *)
Definition existing_config_fs : MemFS :=
  {| entries :=
       <["/etc/app.conf" := File (bytes_of_string "existing config")]>
         (<["/etc" := Dir]> ∅);
     faulty := ∅ |}.

Definition existing_config_world : World MemFS MockSerializer :=
  mkWorld existing_config_fs "/home/user"
    (<[1 := mock "" None None]> (<[0 := mock "new config" None None]> ∅))
    [].

(** The manager after a load of [/etc/app.conf]. *)
Definition loaded_testapp : ConfigManager :=
  {| defaults := defaults testapp; filePath := "/etc/app.conf" |}.

(** The path of the load names a directory. *)
Definition directory_world : World MemFS MockSerializer :=
  mkWorld {| entries := <["/etc/app.conf" := Dir]> ∅; faulty := ∅ |}
    "/home/user"
    (<[1 := mock "" None None]> (<[0 := mock "config data" None None]> ∅))
    [].

(** A file that is there, with content of its own, and on which stat
    fails with an I/O error. *)
Definition unstatable_fs : MemFS :=
  {| entries :=
       <["/cfg/app.conf" := File (bytes_of_string "precious settings")]>
         (<["/cfg" := Dir]> ∅);
     faulty := {["/cfg/app.conf"]} |}.

Definition unstatable_world : World MemFS MockSerializer :=
  mkWorld unstatable_fs "/home/user"
    (<[0 := mock "config data" None None]> ∅) [].

(** The documented format, [config error: <op> "<path>": <cause>]. *)
Definition documented_message (op path cause : string) : string :=
  "config error: " +:+ op +:+ " " +:+ strconv_Quote path +:+ ": " +:+ cause.

(** What [Error] returns for the constructor's errors. *)
Definition initialization_message (cause : string) : string :=
  "config error: initialization " +:+ String dquote (String dquote "")
    +:+ ": " +:+ cause.

(** ** What a call may touch *)

Section Footprint.
Context {FS : Type} `{!OS FS} {Obj : Type} `{!SerializerImpl Obj}.

(** The calls ensureConfigFile may make for [path]: stat and write on the
    path itself, MkdirAll on its directory, the encode of the defaults. *)
Definition ensure_event (path : string) (d : Serializer) (ev : Event) : Prop :=
  match ev with
  | EvStat name _ => name = path
  | EvMkdirAll p perm _ => p = filepath_Dir path ∧ perm = perm_0755
  | EvMarshal l _ _ => d = Some l
  | EvWriteFile name _ perm _ => name = path ∧ perm = perm_0644
  | _ => False
  end.

(** The calls LoadConfig may make: those of ensureConfigFile, the read of
    the path and the decode into the target. *)
Definition load_event (path : string) (d t : Serializer) (ev : Event) : Prop :=
  match ev with
  | EvReadFile name _ _ => name = path
  | EvUnmarshal l _ _ => t = Some l
  | _ => ensure_event path d ev
  end.

(** The calls SaveConfig may make: the encode of the strategy it is given
    and the write of the remembered path. *)
Definition save_event (path : string) (config : Serializer) (ev : Event)
  : Prop :=
  match ev with
  | EvMarshal l _ _ => config = Some l
  | EvWriteFile name _ perm _ => name = path ∧ perm = perm_0644
  | _ => False
  end.

(** A computation that leaves [$HOME] alone, logs only allowed calls and
    changes no object outside the ones it owns. *)
Definition confined {A : Type} (allowed : Event → Prop) (owned : loc → Prop)
    (m : M FS Obj A) : Prop :=
  ∀ w,
    w_home (m w).2 = w_home w
    ∧ (∃ evs, w_trace (m w).2 = w_trace w ++ evs ∧ Forall allowed evs)
    ∧ (∀ l, ¬ owned l → w_heap (m w).2 !! l = w_heap w !! l).

(** The path a manager remembers after a sequence of calls with the given
    results: the path of the last load that returned no error. *)
Fixpoint last_loaded (init : string) (cs : list Call)
    (errs : list (option error)) : string :=
  match cs, errs with
  | CallLoad filePath _ :: cs', None :: errs' => last_loaded filePath cs' errs'
  | _ :: cs', _ :: errs' => last_loaded init cs' errs'
  | _, _ => init
  end.

End Footprint.


(** The decode of a MockSerializer, run once for each element of a list of
    inputs; the errors it returned, in order, and the object it leaves. *)
Fixpoint Unmarshal_all (m : MockSerializer) (inputs : list bytes)
  : MockSerializer * list (option error) :=
  match inputs with
  | [] => (m, [])
  | data :: rest =>
      let '(m', err) := MockSerializer_Unmarshal m data in
      let '(m'', errs) := Unmarshal_all m' rest in
      (m'', err :: errs)
  end.

(** ** More scenarios *)

(** A regular file stands where the directory of the configuration file
    should be. *)
Definition blocked_directory_world : World MemFS MockSerializer :=
  mkWorld {| entries := <["/cfg" := File (bytes_of_string "not a directory")]> ∅;
             faulty := ∅ |}
    "/home/user"
    (<[1 := mock "" None None]> (<[0 := mock "config data" None None]> ∅))
    [].

(** The path names a directory on which stat fails. *)
Definition unstatable_directory_world : World MemFS MockSerializer :=
  mkWorld {| entries := <["/cfg/app.conf" := Dir]> (<["/cfg" := Dir]> ∅);
             faulty := {["/cfg/app.conf"]} |}
    "/home/user"
    (<[1 := mock "" None None]> (<[0 := mock "config data" None None]> ∅))
    [].


(** * Properties *)

Example Error_with_path :
  ConfigError_Error (NewError "read config" "/a" (Some (errorString "x")))
  = "config error: read config: x".
Proof. reflexivity. Qed.

Example Error_without_path :
  ConfigError_Error (NewError "marshal config" "" (Some (errorString "x")))
  = "config error: marshal config " +:+ String dquote (String dquote ": x").
Proof. reflexivity. Qed.

Example Quote_escapes :
  strconv_Quote (String "a" (String dquote (String backslash "b")))
  = String dquote (String "a" (String backslash (String dquote
      (String backslash (String backslash (String "b" (String dquote "")))))))%string.
Proof. reflexivity. Qed.

(** ** The rendering of a ConfigError *)

Lemma append_inj_l (a b c : string) : a +:+ b = a +:+ c → b = c.
Proof. induction a as [|x a IH]; simpl; [done | intros [= ?]; auto]. Qed.

(** With a path, [Error] takes the branch that leaves the path out. *)
Lemma Error_nonempty_path op path cause :
  path ≠ "" →
  ConfigError_Error (NewError op path (Some cause))
  = "config error: " +:+ op +:+ ": " +:+ error_Error cause.
Proof.
  intros Hp. unfold ConfigError_Error, NewError. simpl.
  by rewrite bool_decide_true.
Qed.

(** Without one, it prints the empty path between quotes. *)
Lemma Error_empty_path op cause :
  ConfigError_Error (NewError op "" (Some cause))
  = "config error: " +:+ op +:+ " " +:+ String dquote (String dquote "")
      +:+ ": " +:+ error_Error cause.
Proof. reflexivity. Qed.

Lemma Error_nonempty_path_not_documented op path cause :
  path ≠ "" →
  ConfigError_Error (NewError op path (Some cause))
  ≠ documented_message op path (error_Error cause).
Proof.
  intros Hp. rewrite Error_nonempty_path by done. unfold documented_message.
  intros Heq. apply append_inj_l in Heq. apply append_inj_l in Heq.
  discriminate Heq.
Qed.

(** ** Running the manager *)

Section Properties.
Context {FS : Type} `{!OS FS} {Obj : Type} `{!SerializerImpl Obj}.
Implicit Types (w : World FS Obj) (cm : ConfigManager) (d : Defaults).

Lemma bind_run {A B} (m : M FS Obj A) (k : A → M FS Obj B) w :
  (m ≫= k) w =
  match m w with
  | (Ret a, w') => k a w'
  | (Panic msg, w') => (Panic msg, w')
  end.
Proof. reflexivity. Qed.

Lemma ret_run {A} (a : A) w : (mret a : M FS Obj A) w = (Ret a, w).
Proof. reflexivity. Qed.

(** C2: a load with the empty path returns the plain error
    [no path provided], which is not a ConfigError, whatever the target
    (nil included); the world is left as it was, so nothing was asked of
    the file system, and the manager comes back unchanged. *)
Theorem LoadConfig_empty_path cm (target : Serializer) w :
  LoadConfig cm "" target w
  = (Ret (cm, Some (errorString "no path provided")), w)
  ∧ (∀ c, errorString "no path provided" ≠ configError c)
  ∧ error_Error (errorString "no path provided") = "no path provided".
Proof. split; [reflexivity | split; [discriminate | reflexivity]]. Qed.

(** C3: with an empty application name, and with a nil default-values
    strategy, the constructor returns no manager and leaves the world
    alone, but the error it returns is a ConfigError for the operation
    [initialization], and its rendered message is not the bare text: it
    carries the [config error: initialization] prefix and a quoted empty
    path. *)
Theorem NewConfigManager_invalid_rendering
    (s : Serializer) (c : ascii) (name : string) w :
  (∃ e, NewConfigManager {| AppName := ""; DefaultConfigValues := s |} w
        = (Ret (None, Some e), w)
      ∧ e = configError (NewError "initialization" ""
              (Some (errorString "AppName must be specified")))
      ∧ error_Error e = initialization_message "AppName must be specified"
      ∧ error_Error e ≠ "AppName must be specified")
  ∧ (∃ e, NewConfigManager
            {| AppName := String c name; DefaultConfigValues := None |} w
          = (Ret (None, Some e), w)
      ∧ e = configError (NewError "initialization" ""
              (Some (errorString "DefaultConfigValues must be specified")))
      ∧ error_Error e
        = initialization_message "DefaultConfigValues must be specified"
      ∧ error_Error e ≠ "DefaultConfigValues must be specified").
Proof.
  split; eexists; (split; [reflexivity |]); repeat split; discriminate.
Qed.

(** *** What ensureConfigFile does *)

Lemma ensureConfigFile_exists cm path w :
  sys_Stat path (w_fs w) = None →
  ensureConfigFile cm path w = (Ret None, log (EvStat path None) w).
Proof.
  intros Hstat. unfold ensureConfigFile. rewrite bind_run.
  unfold os_Stat. by rewrite Hstat.
Qed.

Lemma ensureConfigFile_mkdir_fails cm path w e fs1 e1 :
  sys_Stat path (w_fs w) = Some e →
  sys_MkdirAll (filepath_Dir path) perm_0755 (w_fs w) = (fs1, Some e1) →
  ensureConfigFile cm path w
  = (Ret (Some (configError
        (NewError "create config directory" (filepath_Dir path) (Some e1)))),
     mkWorld fs1 (w_home w) (w_heap w)
       (w_trace w ++ [EvStat path (Some e);
                      EvMkdirAll (filepath_Dir path) perm_0755 (Some e1)])).
Proof.
  intros Hstat Hmk. unfold ensureConfigFile. rewrite bind_run.
  unfold os_Stat. rewrite Hstat. rewrite bind_run.
  unfold os_MkdirAll. simpl. rewrite Hmk. rewrite ret_run.
  unfold log, set_fs. simpl. by rewrite <- app_assoc.
Qed.

Lemma ensureConfigFile_marshal_fails cm path w e fs1 l o o' data e2 :
  sys_Stat path (w_fs w) = Some e →
  sys_MkdirAll (filepath_Dir path) perm_0755 (w_fs w) = (fs1, None) →
  DefaultConfigValues (defaults cm) = Some l →
  w_heap w !! l = Some o →
  impl_Marshal o = (o', (data, Some e2)) →
  ensureConfigFile cm path w
  = (Ret (Some (configError
        (NewError "marshal default config" path (Some e2)))),
     mkWorld fs1 (w_home w) (<[l := o']> (w_heap w))
       (w_trace w ++ [EvStat path (Some e);
                      EvMkdirAll (filepath_Dir path) perm_0755 None;
                      EvMarshal l data (Some e2)])).
Proof.
  intros Hstat Hmk Hd Ho Hm. unfold ensureConfigFile. rewrite bind_run.
  unfold os_Stat. rewrite Hstat. rewrite bind_run.
  unfold os_MkdirAll. simpl. rewrite Hmk. rewrite bind_run.
  unfold Serializer_Marshal. rewrite Hd. simpl. rewrite Ho, Hm.
  rewrite ret_run. unfold log, set_fs, set_obj. simpl.
  by rewrite <- !app_assoc.
Qed.

Lemma ensureConfigFile_writes cm path w e fs1 l o o' data fs2 werr :
  sys_Stat path (w_fs w) = Some e →
  sys_MkdirAll (filepath_Dir path) perm_0755 (w_fs w) = (fs1, None) →
  DefaultConfigValues (defaults cm) = Some l →
  w_heap w !! l = Some o →
  impl_Marshal o = (o', (data, None)) →
  sys_WriteFile path data perm_0644 fs1 = (fs2, werr) →
  ensureConfigFile cm path w
  = (Ret (if werr is Some e3
          then Some (configError
                 (NewError "create default config" path (Some e3)))
          else None),
     mkWorld fs2 (w_home w) (<[l := o']> (w_heap w))
       (w_trace w ++ [EvStat path (Some e);
                      EvMkdirAll (filepath_Dir path) perm_0755 None;
                      EvMarshal l data None;
                      EvWriteFile path data perm_0644 werr])).
Proof.
  intros Hstat Hmk Hd Ho Hm Hw. unfold ensureConfigFile. rewrite bind_run.
  unfold os_Stat. rewrite Hstat. rewrite bind_run.
  unfold os_MkdirAll. simpl. rewrite Hmk. rewrite bind_run.
  unfold Serializer_Marshal. rewrite Hd. simpl. rewrite Ho, Hm.
  rewrite bind_run. unfold os_WriteFile. simpl. rewrite Hw.
  unfold log, set_fs, set_obj. simpl. rewrite <- !app_assoc. simpl.
  by destruct werr.
Qed.

Lemma ensureConfigFile_panics cm path w e fs1 :
  sys_Stat path (w_fs w) = Some e →
  sys_MkdirAll (filepath_Dir path) perm_0755 (w_fs w) = (fs1, None) →
  (DefaultConfigValues (defaults cm) = None
   ∨ ∃ l, DefaultConfigValues (defaults cm) = Some l ∧ w_heap w !! l = None) →
  ensureConfigFile cm path w
  = (Panic nil_dereference,
     mkWorld fs1 (w_home w) (w_heap w)
       (w_trace w ++ [EvStat path (Some e);
                      EvMkdirAll (filepath_Dir path) perm_0755 None])).
Proof.
  intros Hstat Hmk Hd. unfold ensureConfigFile. rewrite bind_run.
  unfold os_Stat. rewrite Hstat. rewrite bind_run.
  unfold os_MkdirAll. simpl. rewrite Hmk. rewrite bind_run.
  unfold Serializer_Marshal, log, set_fs.
  destruct Hd as [-> | (l & -> & Hl)]; simpl; rewrite ?Hl;
    by rewrite <- app_assoc.
Qed.

(** *** What LoadConfig does once the file is there *)

Lemma LoadConfig_after_ensure cm filePath t w w1 bt ot ot' uerr :
  filePath ≠ "" →
  ensureConfigFile cm filePath w = (Ret None, w1) →
  sys_ReadFile filePath (w_fs w1) = (bt, None) →
  w_heap w1 !! t = Some ot →
  impl_Unmarshal ot bt = (ot', uerr) →
  LoadConfig cm filePath (Some t) w
  = (Ret (if uerr is Some e
          then (cm, Some (configError
                            (NewError "unmarshal config" filePath (Some e))))
          else (Build_ConfigManager (defaults cm) filePath, None)),
     mkWorld (w_fs w1) (w_home w1) (<[t := ot']> (w_heap w1))
       (w_trace w1 ++ [EvReadFile filePath bt None; EvUnmarshal t bt uerr])).
Proof.
  intros Hp Hens Hrd Ht Hu. unfold LoadConfig.
  rewrite bool_decide_false by done. rewrite bind_run, Hens, bind_run.
  unfold os_ReadFile. rewrite Hrd. rewrite bind_run.
  unfold Serializer_Unmarshal. simpl. rewrite Ht, Hu.
  unfold log, set_obj. simpl. rewrite <- !app_assoc. simpl.
  by destruct uerr.
Qed.

(** C1: when the file is there and read but the target's decode fails,
    LoadConfig returns a ConfigError with operation [unmarshal config],
    the path given to the load and the decode error as its cause.  Its
    rendered text, however, leaves the path out: it is
    [config error: unmarshal config: <cause>], never the documented
    [config error: unmarshal config "<path>": <cause>]. *)
Theorem LoadConfig_unmarshal_error_rendering
    cm filePath t w w1 bt ot ot' cause :
  filePath ≠ "" →
  ensureConfigFile cm filePath w = (Ret None, w1) →
  sys_ReadFile filePath (w_fs w1) = (bt, None) →
  w_heap w1 !! t = Some ot →
  impl_Unmarshal ot bt = (ot', Some cause) →
  ∃ c w',
    LoadConfig cm filePath (Some t) w = (Ret (cm, Some (configError c)), w')
    ∧ Operation c = "unmarshal config"
    ∧ Path c = filePath
    ∧ Err c = Some cause
    ∧ ConfigError_Error c
      = "config error: unmarshal config: " +:+ error_Error cause
    ∧ ConfigError_Error c
      ≠ documented_message "unmarshal config" filePath (error_Error cause).
Proof.
  intros Hp Hens Hrd Ht Hu.
  eexists _, _. split.
  { erewrite LoadConfig_after_ensure by done. reflexivity. }
  repeat split.
  - by apply Error_nonempty_path.
  - by apply Error_nonempty_path_not_documented.
Qed.

Lemma LoadConfig_result_manager cm filePath (target : Serializer) w cm' err w' :
  LoadConfig cm filePath target w = (Ret (cm', err), w') →
  cm' = if err is None then Build_ConfigManager (defaults cm) filePath else cm.
Proof.
  unfold LoadConfig. case_bool_decide as Hp.
  { by intros [= <- <- _]. }
  rewrite bind_run.
  destruct (ensureConfigFile cm filePath w) as [[[e1|]|msg] w1];
    [by intros [= <- <- _] | | done].
  rewrite bind_run. unfold os_ReadFile.
  destruct (sys_ReadFile filePath (w_fs w1)) as [bt [e2|]];
    [by intros [= <- <- _] |].
  rewrite bind_run. unfold Serializer_Unmarshal.
  destruct target as [t|]; simpl; [| done].
  destruct (w_heap w1 !! t) as [ot|]; [| done].
  destruct (impl_Unmarshal ot bt) as [ot' [e3|]]; by intros [= <- <- _].
Qed.

Lemma LoadConfig_success_steps cm filePath (target : Serializer) w :
  load_steps_succeed cm filePath target w
  ↔ ∃ cm' w', LoadConfig cm filePath target w = (Ret (cm', None), w').
Proof.
  unfold load_steps_succeed. split.
  - intros (Hp & w1 & bt & t & ot & Hens & Hrd & -> & Ht & Hu).
    destruct (impl_Unmarshal ot bt) as [ot' uerr] eqn:Hu'.
    simpl in Hu. subst uerr.
    erewrite LoadConfig_after_ensure by done. simpl. eauto.
  - intros (cm' & w' & Hload). unfold LoadConfig in Hload.
    case_bool_decide as Hp; [done |]. split; [done |].
    rewrite bind_run in Hload.
    destruct (ensureConfigFile cm filePath w) as [[[e1|]|msg] w1];
      [done | | done].
    rewrite bind_run in Hload. unfold os_ReadFile in Hload.
    destruct (sys_ReadFile filePath (w_fs w1)) as [bt [e2|]] eqn:Hrd;
      [done |].
    rewrite bind_run in Hload. unfold Serializer_Unmarshal in Hload.
    destruct target as [t|]; [| done]. simpl in Hload.
    destruct (w_heap w1 !! t) as [ot|] eqn:Ht; [| done].
    destruct (impl_Unmarshal ot bt) as [ot' [e3|]] eqn:Hu; [done |].
    exists w1, bt, t, ot. by rewrite Hu.
Qed.

(** C6: LoadConfig returns no error exactly when every step succeeds; it
    then hands back the manager with the given path as its current path.
    Whenever it returns an error, at whichever step, the manager is the
    one it was called with, remembered path included. *)
Theorem LoadConfig_records_path cm path (target : Serializer) w :
  (load_steps_succeed cm path target w
   ↔ ∃ cm' w', LoadConfig cm path target w = (Ret (cm', None), w'))
  ∧ (∀ cm' w', LoadConfig cm path target w = (Ret (cm', None), w') →
       cm' = Build_ConfigManager (defaults cm) path
       ∧ filePath cm' = path)
  ∧ (∀ cm' e w', LoadConfig cm path target w = (Ret (cm', Some e), w') →
       cm' = cm).
Proof.
  split; [apply LoadConfig_success_steps | split].
  - intros cm' w' Hload. apply LoadConfig_result_manager in Hload. by subst.
  - intros cm' e w' Hload. by apply LoadConfig_result_manager in Hload.
Qed.

(** *** What SaveConfig does *)

Lemma SaveConfig_run cm l w o o' bt merr :
  w_heap w !! l = Some o →
  impl_Marshal o = (o', (bt, merr)) →
  SaveConfig cm (Some l) w =
  match merr with
  | Some e =>
      (Ret (Some (configError (NewError "marshal config" "" (Some e)))),
       mkWorld (w_fs w) (w_home w) (<[l := o']> (w_heap w))
         (w_trace w ++ [EvMarshal l bt (Some e)]))
  | None =>
      let '(fs', werr) := sys_WriteFile (filePath cm) bt perm_0644 (w_fs w) in
      (Ret (if werr is Some e
            then Some (configError
                         (NewError "save config" (filePath cm) (Some e)))
            else None),
       mkWorld fs' (w_home w) (<[l := o']> (w_heap w))
         (w_trace w ++ [EvMarshal l bt None;
                        EvWriteFile (filePath cm) bt perm_0644 werr]))
  end.
Proof.
  intros Ho Hm. unfold SaveConfig. rewrite bind_run.
  unfold Serializer_Marshal. rewrite Ho, Hm. destruct merr as [e|].
  { reflexivity. }
  rewrite bind_run. unfold os_WriteFile. simpl.
  destruct (sys_WriteFile (filePath cm) bt perm_0644 (w_fs w)) as [fs' werr].
  unfold log, set_fs, set_obj. simpl. rewrite <- !app_assoc. simpl.
  by destruct werr.
Qed.

(** *** The manager a client holds *)



(** *** Counting creations *)


(** C9: whatever error stat returns, ensureConfigFile goes on to create:
    the next thing it asks for is MkdirAll on the directory of the path;
    and when that and the encode of the defaults succeed, it writes the
    encoded bytes to the path, so that the file system it leaves is the
    one the write produced, be there an entry at the path or not. *)
Theorem ensureConfigFile_any_stat_error cm path w e :
  sys_Stat path (w_fs w) = Some e →
  (∃ r w' merr evs,
     ensureConfigFile cm path w = (r, w')
     ∧ w_trace w' = w_trace w ++
         EvStat path (Some e)
         :: EvMkdirAll (filepath_Dir path) perm_0755 merr :: evs)
  ∧ (∀ fs1 l o o' data fs2 werr,
       sys_MkdirAll (filepath_Dir path) perm_0755 (w_fs w) = (fs1, None) →
       DefaultConfigValues (defaults cm) = Some l →
       w_heap w !! l = Some o →
       impl_Marshal o = (o', (data, None)) →
       sys_WriteFile path data perm_0644 fs1 = (fs2, werr) →
       ∃ r w',
         ensureConfigFile cm path w = (Ret r, w')
         ∧ w_fs w' = fs2
         ∧ w_trace w' = w_trace w ++
             [EvStat path (Some e);
              EvMkdirAll (filepath_Dir path) perm_0755 None;
              EvMarshal l data None;
              EvWriteFile path data perm_0644 werr]
         ∧ (r = None ↔ werr = None)).
Proof.
  intros Hstat. split.
  - destruct (sys_MkdirAll (filepath_Dir path) perm_0755 (w_fs w))
      as [fs1 [e1|]] eqn:Hmk.
    { erewrite ensureConfigFile_mkdir_fails by done. by eexists _, _, _, _. }
    destruct (DefaultConfigValues (defaults cm)) as [l|] eqn:Hd.
    2:{ erewrite ensureConfigFile_panics by eauto. by eexists _, _, _, _. }
    destruct (w_heap w !! l) as [o|] eqn:Hl.
    2:{ erewrite ensureConfigFile_panics by eauto. by eexists _, _, _, _. }
    destruct (impl_Marshal o) as [o' [data [e2|]]] eqn:Hm.
    { erewrite ensureConfigFile_marshal_fails by done. by eexists _, _, _, _. }
    destruct (sys_WriteFile path data perm_0644 fs1) as [fs2 werr] eqn:Hw.
    erewrite ensureConfigFile_writes by done. by eexists _, _, _, _.
  - intros fs1 l o o' data fs2 werr Hmk Hd Ho Hm Hw.
    erewrite ensureConfigFile_writes by done.
    eexists _, _. split; [reflexivity |]. simpl.
    repeat split; try done; by destruct werr.
Qed.

(** *** Nothing on the public surface looks at the home directory *)

Lemma ignores_home_ret {A} (a : A) : ignores_home (mret a : M FS Obj A).
Proof.
  intros w. split; [done |]. exists []. by rewrite app_nil_r.
Qed.

Lemma ignores_home_bind {A B} (m : M FS Obj A) (k : A → M FS Obj B) :
  ignores_home m → (∀ a, ignores_home (k a)) → ignores_home (m ≫= k).
Proof.
  intros Hm Hk w. destruct (Hm w) as [Hh (evs1 & Htr1 & Hev1)]. split.
  - intros home. rewrite !bind_run, Hh.
    destruct (m w) as [[a|msg] w1]; simpl; [| done].
    apply (Hk a w1).
  - rewrite bind_run. destruct (m w) as [[a|msg] w1]; simpl in *.
    + destruct (Hk a w1) as [_ (evs2 & Htr2 & Hev2)].
      exists (evs1 ++ evs2). rewrite Htr2, Htr1, <- app_assoc.
      split; [done | by apply Forall_app].
    + by exists evs1.
Qed.

Lemma ignores_home_panic {A} msg :
  ignores_home ((λ w, (Panic msg, w)) : M FS Obj A).
Proof.
  intros w. split; [done |]. exists []. by rewrite app_nil_r.
Qed.

Lemma ignores_home_Stat name : ignores_home (os_Stat (Obj := Obj) name).
Proof.
  intros w. split; [done |]. eexists. split; [reflexivity |].
  by repeat constructor.
Qed.

Lemma ignores_home_MkdirAll path perm :
  ignores_home (os_MkdirAll (Obj := Obj) path perm).
Proof.
  intros w. unfold os_MkdirAll. simpl.
  destruct (sys_MkdirAll path perm (w_fs w)) as [fs' err].
  split; [done |]. eexists. split; [reflexivity |]. by repeat constructor.
Qed.

Lemma ignores_home_WriteFile name data perm :
  ignores_home (os_WriteFile (Obj := Obj) name data perm).
Proof.
  intros w. unfold os_WriteFile. simpl.
  destruct (sys_WriteFile name data perm (w_fs w)) as [fs' err].
  split; [done |]. eexists. split; [reflexivity |]. by repeat constructor.
Qed.

Lemma ignores_home_ReadFile name :
  ignores_home (os_ReadFile (Obj := Obj) name).
Proof.
  intros w. unfold os_ReadFile. simpl.
  destruct (sys_ReadFile name (w_fs w)) as [data err].
  split; [done |]. eexists. split; [reflexivity |]. by repeat constructor.
Qed.

Lemma ignores_home_Marshal (s : Serializer) :
  ignores_home (Serializer_Marshal (FS := FS) s).
Proof.
  destruct s as [l|]; [| apply ignores_home_panic].
  intros w. unfold Serializer_Marshal. simpl.
  destruct (w_heap w !! l) as [o|].
  - destruct (impl_Marshal o) as [o' [data err]].
    split; [done |]. eexists. split; [reflexivity |]. by repeat constructor.
  - split; [done |]. exists []. by rewrite app_nil_r.
Qed.

Lemma ignores_home_Unmarshal (s : Serializer) data :
  ignores_home (Serializer_Unmarshal (FS := FS) s data).
Proof.
  destruct s as [l|]; [| apply ignores_home_panic].
  intros w. unfold Serializer_Unmarshal. simpl.
  destruct (w_heap w !! l) as [o|].
  - destruct (impl_Unmarshal o data) as [o' err].
    split; [done |]. eexists. split; [reflexivity |]. by repeat constructor.
  - split; [done |]. exists []. by rewrite app_nil_r.
Qed.

Create HintDb home discriminated.
#[local] Hint Resolve ignores_home_ret ignores_home_Stat ignores_home_MkdirAll
  ignores_home_WriteFile ignores_home_ReadFile ignores_home_Marshal
  ignores_home_Unmarshal : home.

Ltac ignores_home_step :=
  match goal with
  | |- ignores_home (_ ≫= _) => apply ignores_home_bind; [| intros ?]
  | |- ignores_home (if bool_decide _ then _ else _) => case_bool_decide
  | |- ignores_home (match ?x with _ => _ end) => destruct x
  | |- ignores_home _ => solve [auto with home]
  end.

Lemma ignores_home_NewConfigManager d :
  ignores_home (NewConfigManager (FS := FS) (Obj := Obj) d).
Proof. unfold NewConfigManager. repeat ignores_home_step. Qed.

Lemma ignores_home_ensureConfigFile cm path :
  ignores_home (ensureConfigFile cm path).
Proof. unfold ensureConfigFile. repeat ignores_home_step. Qed.

Lemma ignores_home_LoadConfig cm path (target : Serializer) :
  ignores_home (LoadConfig cm path target).
Proof.
  unfold LoadConfig. pose proof ignores_home_ensureConfigFile.
  repeat ignores_home_step.
Qed.

Lemma ignores_home_SaveConfig cm (config : Serializer) :
  ignores_home (SaveConfig cm config).
Proof. unfold SaveConfig. repeat ignores_home_step. Qed.

Lemma ignores_home_run_calls cs : ∀ cm, ignores_home (run_calls cm cs).
Proof.
  induction cs as [|c rest IH]; intros cm; simpl.
  { apply ignores_home_ret. }
  pose proof ignores_home_LoadConfig. pose proof ignores_home_SaveConfig.
  destruct c; repeat ignores_home_step.
Qed.

Lemma ignores_home_session d cs : ignores_home (session d cs).
Proof.
  unfold session. pose proof ignores_home_NewConfigManager.
  pose proof ignores_home_run_calls. repeat ignores_home_step.
Qed.

(** C8: a client that builds a manager and then loads and saves, in any
    order and any number of times, gets the same results, the same file
    system, the same objects and the same log whatever [$HOME] is; the
    log never shows a request for the home directory.  buildPath, which
    starts with such a request, is therefore never run. *)
Theorem public_surface_ignores_home d cs w home1 home2 :
  (session d cs (set_home home1 w)).1 = (session d cs (set_home home2 w)).1
  ∧ w_fs (session d cs (set_home home1 w)).2
    = w_fs (session d cs (set_home home2 w)).2
  ∧ w_heap (session d cs (set_home home1 w)).2
    = w_heap (session d cs (set_home home2 w)).2
  ∧ w_trace (session d cs (set_home home1 w)).2
    = w_trace (session d cs (set_home home2 w)).2
  ∧ (∃ evs, w_trace (session d cs (set_home home1 w)).2 = w_trace w ++ evs
            ∧ Forall (λ ev, is_home_event ev = false) evs)
  ∧ (∀ cm w0, ∃ home err,
       w_trace (buildPath cm w0).2 = w_trace w0 ++ [EvUserHomeDir home err]).
Proof.
  destruct (ignores_home_session d cs w) as [Hh Hev].
  rewrite !Hh. simpl. repeat split; [done |].
  intros cm w0. unfold buildPath. rewrite bind_run. unfold os_UserHomeDir.
  case_bool_decide; simpl; by eexists _, _.
Qed.

End Properties.

(** ** On a file system that keeps what is written *)

Section Lawful.
Context {FS : Type} `{!OS FS} `{!OSLaws FS} {Obj : Type} `{!SerializerImpl Obj}.
Implicit Types (w : World FS Obj) (cm : ConfigManager) (d : Defaults).


(** What one call of ensureConfigFile adds to the log: at most one
    creation, and one only if the call returns no error; after a call
    that returned no error the file can be found. *)
Lemma ensureConfigFile_log cm path w r w' :
  ensureConfigFile cm path w = (r, w') →
  ∃ evs,
    w_trace w' = w_trace w ++ evs
    ∧ (creations evs ≤ 1)%nat
    ∧ (creations evs = 1 → r = Ret None)
    ∧ (r = Ret None → sys_Stat path (w_fs w') = None).
Proof.
  destruct (sys_Stat path (w_fs w)) as [e|] eqn:Hstat.
  2:{ rewrite ensureConfigFile_exists by done. intros [= <- <-].
      exists [EvStat path None]. simpl. repeat split; auto; lia. }
  destruct (sys_MkdirAll (filepath_Dir path) perm_0755 (w_fs w))
    as [fs1 [e1|]] eqn:Hmk.
  { erewrite ensureConfigFile_mkdir_fails by done. intros [= <- <-].
    eexists. split; [reflexivity |]. simpl. repeat split; try lia; done. }
  destruct (DefaultConfigValues (defaults cm)) as [l|] eqn:Hd.
  2:{ erewrite ensureConfigFile_panics by eauto. intros [= <- <-].
      eexists. split; [reflexivity |]. simpl. repeat split; try lia; done. }
  destruct (w_heap w !! l) as [o|] eqn:Hl.
  2:{ erewrite ensureConfigFile_panics by eauto. intros [= <- <-].
      eexists. split; [reflexivity |]. simpl. repeat split; try lia; done. }
  destruct (impl_Marshal o) as [o' [data [e2|]]] eqn:Hm.
  { erewrite ensureConfigFile_marshal_fails by done. intros [= <- <-].
    eexists. split; [reflexivity |]. simpl. repeat split; try lia; done. }
  destruct (sys_WriteFile path data perm_0644 fs1) as [fs2 werr] eqn:Hw.
  erewrite ensureConfigFile_writes by done. intros [= <- <-].
  eexists. split; [reflexivity |]. simpl.
  destruct werr as [e3|]; simpl; repeat split; try lia; try done.
  intros _. by eapply write_then_stat.
Qed.




End Lawful.

(** ** MemFS keeps what is written *)

#[export] Instance MemFS_laws : OSLaws MemFS.
Proof.
  split.
  - intros name data perm fs fs'. simpl. unfold mem_WriteFile, mem_ReadFile.
    case_bool_decide; [done |].
    destruct (entries fs !! name) as [[|]|]; try done;
      destruct (has_dir (mem_Dir name) fs); try done;
      intros [= <-]; simpl; by rewrite lookup_insert_eq.
  - intros name data perm fs fs'. simpl. unfold mem_WriteFile, mem_Stat.
    case_bool_decide; [done |].
    destruct (entries fs !! name) as [[|]|]; try done;
      destruct (has_dir (mem_Dir name) fs); try done;
      intros [= <-]; simpl; rewrite lookup_insert_eq;
      rewrite bool_decide_false; try done;
      rewrite elem_of_difference, elem_of_singleton; tauto.
  - intros data perm fs. discriminate.
Qed.

(** ** The theorems at work on the scenarios *)

Lemma LoadConfig_unmarshal_error_rendering_witness :
  ∃ c w',
    LoadConfig testapp "/etc/app.conf" (Some 1) invalid_config_world
    = (Ret (testapp, Some (configError c)), w')
    ∧ Operation c = "unmarshal config"
    ∧ Path c = "/etc/app.conf"
    ∧ Err c = Some (errorString "parse error")
    ∧ ConfigError_Error c = "config error: unmarshal config: parse error"
    ∧ ConfigError_Error c
      ≠ documented_message "unmarshal config" "/etc/app.conf" "parse error".
Proof.
  eapply (LoadConfig_unmarshal_error_rendering (FS := MemFS)
            testapp "/etc/app.conf" 1 invalid_config_world).
  - discriminate.
  - vm_compute. reflexivity.
  - vm_compute. reflexivity.
  - vm_compute. reflexivity.
  - vm_compute. reflexivity.
Defined.







Lemma ensureConfigFile_any_stat_error_witness :
  sys_ReadFile "/cfg/app.conf" (w_fs unstatable_world)
  = (bytes_of_string "precious settings", None)
  ∧ sys_Stat "/cfg/app.conf" (w_fs unstatable_world)
    = os_error "stat" "/cfg/app.conf" "input/output error"
  ∧ ∃ w',
      ensureConfigFile testapp "/cfg/app.conf" unstatable_world
      = (Ret None, w')
      ∧ w_trace w' =
          [EvStat "/cfg/app.conf"
             (os_error "stat" "/cfg/app.conf" "input/output error");
           EvMkdirAll "/cfg" perm_0755 None;
           EvMarshal 0 (bytes_of_string "config data") None;
           EvWriteFile "/cfg/app.conf" (bytes_of_string "config data")
             perm_0644 None]
      ∧ sys_ReadFile "/cfg/app.conf" (w_fs w')
        = (bytes_of_string "config data", None).
Proof.
  split; [by vm_compute |]. split; [by vm_compute |].
  edestruct (ensureConfigFile_any_stat_error (FS := MemFS)
               (Obj := MockSerializer) testapp "/cfg/app.conf"
               unstatable_world) as [_ Hcreate].
  { vm_compute. reflexivity. }
  edestruct Hcreate as (r & w' & Hrun & Hfs & Htr & Hr).
  - vm_compute. reflexivity.
  - reflexivity.
  - vm_compute. reflexivity.
  - reflexivity.
  - vm_compute. reflexivity.
  - assert (r = None) as -> by (by apply Hr).
    exists w'. split; [exact Hrun |]. split; [exact Htr |].
    rewrite Hfs. vm_compute. reflexivity.
Defined.


(** * Further properties of the package *)

(** X18: the text of a ConfigError with a non-empty path does not depend
    on the path: two errors that differ only there print the same. *)
Theorem Error_forgets_path op path1 path2 (err : option error) :
  path1 ≠ "" → path2 ≠ "" →
  ConfigError_Error (NewError op path1 err)
  = ConfigError_Error (NewError op path2 err).
Proof.
  intros H1 H2. unfold ConfigError_Error, NewError. simpl.
  by rewrite !bool_decide_true.
Qed.

Section MoreProperties.
Context {FS : Type} `{!OS FS} {Obj : Type} `{!SerializerImpl Obj}.
Implicit Types (w : World FS Obj) (cm : ConfigManager) (d : Defaults).

(** X1: the constructor never touches the world and returns exactly one
    of a manager and an error.  It returns a manager exactly when the
    application name is not empty and the default values are not nil; the
    manager then holds the defaults it was given and the empty path.  The
    name is checked first: with an empty name the error is the one about
    the name, whatever the default values are. *)
Theorem NewConfigManager_validates d w :
  ∃ ocm err,
    NewConfigManager d w = (Ret (ocm, err), w)
    ∧ (ocm = None ↔ err ≠ None)
    ∧ (err = None ↔ AppName d ≠ "" ∧ DefaultConfigValues d ≠ None)
    ∧ (∀ m, ocm = Some m → defaults m = d ∧ filePath m = "")
    ∧ (AppName d = "" →
       err = Some (configError (NewError "initialization" ""
                     (Some (errorString "AppName must be specified"))))).
Proof.
  unfold NewConfigManager. repeat case_bool_decide; rewrite ret_run;
    eexists _, _; (split; [reflexivity |]);
    repeat split; intros; simplify_eq; simpl; try done; intuition congruence.
Qed.

(** X2: when stat fails and the directory cannot be created, LoadConfig
    returns a ConfigError with operation [create config directory] whose
    path is the directory, not the file, and whose cause is MkdirAll's
    error; the defaults are not encoded, nothing is written or read, no
    object changes and the manager is unchanged. *)
Theorem LoadConfig_directory_error cm path (target : Serializer) w e fs1 e1 :
  path ≠ "" →
  sys_Stat path (w_fs w) = Some e →
  sys_MkdirAll (filepath_Dir path) perm_0755 (w_fs w) = (fs1, Some e1) →
  ∃ c w',
    LoadConfig cm path target w = (Ret (cm, Some (configError c)), w')
    ∧ Operation c = "create config directory"
    ∧ Path c = filepath_Dir path
    ∧ ConfigError_Unwrap c = Some e1
    ∧ w_fs w' = fs1
    ∧ w_heap w' = w_heap w
    ∧ w_trace w' = w_trace w ++
        [EvStat path (Some e);
         EvMkdirAll (filepath_Dir path) perm_0755 (Some e1)].
Proof.
  intros Hp Hstat Hmk. unfold LoadConfig. rewrite bool_decide_false by done.
  rewrite bind_run. erewrite ensureConfigFile_mkdir_fails by done.
  rewrite ret_run. by eexists _, _.
Qed.

(** X3: when the file is missing and the encode of the defaults fails,
    LoadConfig returns a ConfigError with operation
    [marshal default config], the file's path and the encode error; the
    directory it created stays, nothing is written or read, and the
    manager is unchanged. *)
Theorem LoadConfig_marshal_default_error
    cm path (target : Serializer) w e fs1 l o o' data e2 :
  path ≠ "" →
  sys_Stat path (w_fs w) = Some e →
  sys_MkdirAll (filepath_Dir path) perm_0755 (w_fs w) = (fs1, None) →
  DefaultConfigValues (defaults cm) = Some l →
  w_heap w !! l = Some o →
  impl_Marshal o = (o', (data, Some e2)) →
  ∃ c w',
    LoadConfig cm path target w = (Ret (cm, Some (configError c)), w')
    ∧ Operation c = "marshal default config"
    ∧ Path c = path
    ∧ ConfigError_Unwrap c = Some e2
    ∧ w_fs w' = fs1
    ∧ w_trace w' = w_trace w ++
        [EvStat path (Some e);
         EvMkdirAll (filepath_Dir path) perm_0755 None;
         EvMarshal l data (Some e2)].
Proof.
  intros Hp Hstat Hmk Hd Ho Hm. unfold LoadConfig.
  rewrite bool_decide_false by done.
  rewrite bind_run. erewrite ensureConfigFile_marshal_fails by done.
  rewrite ret_run. by eexists _, _.
Qed.

(** X4: when the file is missing and the write of the encoded defaults
    fails, LoadConfig returns a ConfigError with operation
    [create default config], the file's path and the write's error; the
    file system is left as the failed write left it, nothing is read and
    the manager is unchanged. *)
Theorem LoadConfig_create_default_error
    cm path (target : Serializer) w e fs1 l o o' data fs2 e3 :
  path ≠ "" →
  sys_Stat path (w_fs w) = Some e →
  sys_MkdirAll (filepath_Dir path) perm_0755 (w_fs w) = (fs1, None) →
  DefaultConfigValues (defaults cm) = Some l →
  w_heap w !! l = Some o →
  impl_Marshal o = (o', (data, None)) →
  sys_WriteFile path data perm_0644 fs1 = (fs2, Some e3) →
  ∃ c w',
    LoadConfig cm path target w = (Ret (cm, Some (configError c)), w')
    ∧ Operation c = "create default config"
    ∧ Path c = path
    ∧ ConfigError_Unwrap c = Some e3
    ∧ w_fs w' = fs2
    ∧ w_trace w' = w_trace w ++
        [EvStat path (Some e);
         EvMkdirAll (filepath_Dir path) perm_0755 None;
         EvMarshal l data None;
         EvWriteFile path data perm_0644 (Some e3)].
Proof.
  intros Hp Hstat Hmk Hd Ho Hm Hw. unfold LoadConfig.
  rewrite bool_decide_false by done.
  rewrite bind_run. erewrite ensureConfigFile_writes by done.
  simpl. by eexists _, _.
Qed.


(** X7: a load with a nil target panics, but only at the decode: by
    then the file has been ensured (created if it was missing) and read,
    and these effects stay. *)
Theorem LoadConfig_nil_target cm path w w1 bt :
  path ≠ "" →
  ensureConfigFile cm path w = (Ret None, w1) →
  sys_ReadFile path (w_fs w1) = (bt, None) →
  LoadConfig cm path None w
  = (Panic nil_dereference, log (EvReadFile path bt None) w1).
Proof.
  intros Hp Hens Hrd. unfold LoadConfig. rewrite bool_decide_false by done.
  rewrite bind_run, Hens, bind_run. unfold os_ReadFile. rewrite Hrd.
  reflexivity.
Qed.

(** *** The errors a load can return *)



(** X9: through any sequence of loads and saves the manager keeps its
    defaults, and the path it remembers at the end is the path of the
    last load that returned no error (the path it started with if there
    was none); every call of the sequence has its result. *)
Theorem run_calls_remembers cm cs :
  ∀ w cm' errs w',
    run_calls cm cs w = (Ret (cm', errs), w') →
    defaults cm' = defaults cm
    ∧ filePath cm' = last_loaded (filePath cm) cs errs
    ∧ length errs = length cs.
Proof.
  revert cm. induction cs as [|c rest IH]; intros cm w cm' errs w' Hrun.
  { simpl in Hrun. rewrite ret_run in Hrun. by injection Hrun as <- <- _. }
  destruct c as [path target | config]; simpl in Hrun;
    rewrite bind_run in Hrun.
  - destruct (LoadConfig cm path target w) as [[[cm1 err]|msg] w1] eqn:Hload;
      [| done].
    rewrite bind_run in Hrun.
    destruct (run_calls cm1 rest w1) as [[[cm2 errs2]|msg] w2] eqn:Hrest;
      [| done].
    rewrite ret_run in Hrun. injection Hrun as <- <- _.
    apply LoadConfig_result_manager in Hload.
    destruct (IH _ _ _ _ _ Hrest) as (Hd & Hp & Hl).
    rewrite Hd, Hp. simpl. destruct err as [e|]; subst cm1; simpl;
      by rewrite Hl.
  - destruct (SaveConfig cm config w) as [[err|msg] w1]; [| done].
    rewrite bind_run in Hrun.
    destruct (run_calls cm rest w1) as [[[cm2 errs2]|msg] w2] eqn:Hrest;
      [| done].
    rewrite ret_run in Hrun. injection Hrun as <- <- _.
    destruct (IH _ _ _ _ _ Hrest) as (Hd & Hp & Hl).
    rewrite Hd, Hp. simpl. by rewrite Hl.
Qed.

(** X10: buildPath asks for the home directory and nothing else.  With
    an empty [$HOME] it returns the empty path and the error of
    os.UserHomeDir; otherwise it returns the join of the home directory,
    [.config], the application name and [default.conf], and no error.
    The file system and the objects are left alone either way. *)
Theorem buildPath_home cm w :
  (w_home w = "" →
   buildPath cm w
   = (Ret ("", Some (errorString "$HOME is not defined")),
      log (EvUserHomeDir "" (Some (errorString "$HOME is not defined"))) w))
  ∧ (w_home w ≠ "" →
     buildPath cm w
     = (Ret (filepath_Join
               [w_home w; ".config"; AppName (defaults cm); "default.conf"],
             None),
        log (EvUserHomeDir (w_home w) None) w)).
Proof.
  unfold buildPath. rewrite bind_run. unfold os_UserHomeDir.
  split; intros Hh.
  - by rewrite bool_decide_false by (by intros []).
  - by rewrite bool_decide_true.
Qed.

(** *** What a call touches *)

Lemma confined_mono {A} (P P' : Event → Prop) (L L' : loc → Prop)
    (m : M FS Obj A) :
  (∀ ev, P ev → P' ev) → (∀ l, L l → L' l) →
  confined P L m → confined P' L' m.
Proof.
  intros HP HL Hm w. destruct (Hm w) as (Hh & (evs & Htr & Hev) & Hheap).
  split; [done |]. split.
  - exists evs. split; [done |]. eapply Forall_impl; eauto.
  - intros l Hl. apply Hheap. eauto.
Qed.

Lemma confined_ret {A} P L (a : A) : confined P L (mret a : M FS Obj A).
Proof.
  intros w. split; [done |]. split; [| done].
  exists []. by rewrite app_nil_r.
Qed.

Lemma confined_panic {A} P L msg :
  confined P L ((λ w, (Panic msg, w)) : M FS Obj A).
Proof.
  intros w. split; [done |]. split; [| done].
  exists []. by rewrite app_nil_r.
Qed.

Lemma confined_bind {A B} P L (m : M FS Obj A) (k : A → M FS Obj B) :
  confined P L m → (∀ a, confined P L (k a)) → confined P L (m ≫= k).
Proof.
  intros Hm Hk w. rewrite bind_run.
  destruct (Hm w) as (Hh & (evs1 & Htr1 & Hev1) & Hheap1).
  destruct (m w) as [[a|msg] w1]; simpl in *.
  - destruct (Hk a w1) as (Hh2 & (evs2 & Htr2 & Hev2) & Hheap2).
    split; [congruence |]. split.
    + exists (evs1 ++ evs2). rewrite Htr2, Htr1, <- app_assoc.
      split; [done | by apply Forall_app].
    + intros l Hl. rewrite Hheap2, Hheap1; done.
  - split; [done |]. split; [by exists evs1 | done].
Qed.

Lemma confined_Stat (P : Event → Prop) L name :
  (∀ err, P (EvStat name err)) → confined P L (os_Stat (Obj := Obj) name).
Proof.
  intros HP w. split; [done |]. split; [| done].
  eexists. split; [reflexivity |]. by repeat constructor.
Qed.

Lemma confined_MkdirAll (P : Event → Prop) L path perm :
  (∀ err, P (EvMkdirAll path perm err)) →
  confined P L (os_MkdirAll (Obj := Obj) path perm).
Proof.
  intros HP w. unfold os_MkdirAll. simpl.
  destruct (sys_MkdirAll path perm (w_fs w)) as [fs' err].
  split; [done |]. split; [| done].
  eexists. split; [reflexivity |]. by repeat constructor.
Qed.

Lemma confined_WriteFile (P : Event → Prop) L name data perm :
  (∀ err, P (EvWriteFile name data perm err)) →
  confined P L (os_WriteFile (Obj := Obj) name data perm).
Proof.
  intros HP w. unfold os_WriteFile. simpl.
  destruct (sys_WriteFile name data perm (w_fs w)) as [fs' err].
  split; [done |]. split; [| done].
  eexists. split; [reflexivity |]. by repeat constructor.
Qed.

Lemma confined_ReadFile (P : Event → Prop) L name :
  (∀ data err, P (EvReadFile name data err)) →
  confined P L (os_ReadFile (Obj := Obj) name).
Proof.
  intros HP w. unfold os_ReadFile. simpl.
  destruct (sys_ReadFile name (w_fs w)) as [data err].
  split; [done |]. split; [| done].
  eexists. split; [reflexivity |]. by repeat constructor.
Qed.

Lemma confined_Marshal (P : Event → Prop) (L : loc → Prop) (s : Serializer) :
  (∀ l data err, s = Some l → P (EvMarshal l data err)) →
  (∀ l, s = Some l → L l) →
  confined P L (Serializer_Marshal (FS := FS) s).
Proof.
  intros HP HL. destruct s as [l|]; [| apply confined_panic].
  intros w. unfold Serializer_Marshal. simpl.
  destruct (w_heap w !! l) as [o|].
  2:{ split; [done |]. split; [| done]. exists []. by rewrite app_nil_r. }
  destruct (impl_Marshal o) as [o' [data err]]. simpl.
  split; [done |]. split.
  - eexists. split; [reflexivity |]. repeat constructor. by apply HP.
  - intros l' Hl'. apply lookup_insert_ne. intros <-. apply Hl'. by apply HL.
Qed.

Lemma confined_Unmarshal (P : Event → Prop) (L : loc → Prop)
    (s : Serializer) data :
  (∀ l err, s = Some l → P (EvUnmarshal l data err)) →
  (∀ l, s = Some l → L l) →
  confined P L (Serializer_Unmarshal (FS := FS) s data).
Proof.
  intros HP HL. destruct s as [l|]; [| apply confined_panic].
  intros w. unfold Serializer_Unmarshal. simpl.
  destruct (w_heap w !! l) as [o|].
  2:{ split; [done |]. split; [| done]. exists []. by rewrite app_nil_r. }
  destruct (impl_Unmarshal o data) as [o' err]. simpl.
  split; [done |]. split.
  - eexists. split; [reflexivity |]. repeat constructor. by apply HP.
  - intros l' Hl'. apply lookup_insert_ne. intros <-. apply Hl'. by apply HL.
Qed.

Ltac confined_step :=
  match goal with
  | |- confined _ _ (_ ≫= _) => apply confined_bind; [| intros ?]
  | |- confined _ _ (mret _) => apply confined_ret
  | |- confined _ _ (if bool_decide _ then _ else _) => case_bool_decide
  | |- confined _ _ (match ?x with _ => _ end) => destruct x
  | |- confined _ _ (os_Stat _) => apply confined_Stat
  | |- confined _ _ (os_MkdirAll _ _) => apply confined_MkdirAll
  | |- confined _ _ (os_WriteFile _ _ _) => apply confined_WriteFile
  | |- confined _ _ (os_ReadFile _) => apply confined_ReadFile
  | |- confined _ _ (Serializer_Marshal _) => apply confined_Marshal
  | |- confined _ _ (Serializer_Unmarshal _ _) => apply confined_Unmarshal
  end.

Lemma confined_ensureConfigFile cm path :
  confined (ensure_event path (DefaultConfigValues (defaults cm)))
    (λ l, DefaultConfigValues (defaults cm) = Some l)
    (ensureConfigFile cm path).
Proof.
  unfold ensureConfigFile. repeat confined_step; simpl; by intros.
Qed.

(** X6: when ensureConfigFile has returned no error (the file was there,
    or has just been created) but the read fails, LoadConfig returns a
    ConfigError with operation [read config], the path and the read's
    error.  The target's decode is not called and the manager is
    unchanged; the file system and every object are as ensureConfigFile
    left them, so that over the whole call no object other than the one
    holding the defaults (encoded when the file was created) has
    changed. *)
Theorem LoadConfig_read_error cm path (target : Serializer) w w1 bt e :
  path ≠ "" →
  ensureConfigFile cm path w = (Ret None, w1) →
  sys_ReadFile path (w_fs w1) = (bt, Some e) →
  ∃ c w',
    LoadConfig cm path target w = (Ret (cm, Some (configError c)), w')
    ∧ Operation c = "read config"
    ∧ Path c = path
    ∧ ConfigError_Unwrap c = Some e
    ∧ w_fs w' = w_fs w1
    ∧ w_heap w' = w_heap w1
    ∧ w_trace w' = w_trace w1 ++ [EvReadFile path bt (Some e)]
    ∧ (∀ l, DefaultConfigValues (defaults cm) ≠ Some l →
         w_heap w' !! l = w_heap w !! l).
Proof.
  intros Hp Hens Hrd.
  destruct (confined_ensureConfigFile cm path w) as (_ & _ & Hheap).
  rewrite Hens in Hheap. simpl in Hheap.
  unfold LoadConfig. rewrite bool_decide_false by done.
  rewrite bind_run, Hens, bind_run. unfold os_ReadFile. rewrite Hrd.
  rewrite ret_run. eexists _, _. split; [reflexivity |].
  simpl. repeat split; done.
Qed.

(** X11: ensureConfigFile leaves [$HOME] alone; the only calls it makes
    are stat and write on the path it is given, MkdirAll with mode 0755 on
    that path's directory and the encode of the manager's defaults (it
    never reads the file and never decodes); and the only object it can
    change is the one holding the defaults. *)
Theorem ensureConfigFile_footprint cm path w :
  w_home (ensureConfigFile cm path w).2 = w_home w
  ∧ (∃ evs,
       w_trace (ensureConfigFile cm path w).2 = w_trace w ++ evs
       ∧ Forall (ensure_event path (DefaultConfigValues (defaults cm))) evs)
  ∧ (∀ l, DefaultConfigValues (defaults cm) ≠ Some l →
       w_heap (ensureConfigFile cm path w).2 !! l = w_heap w !! l).
Proof. apply confined_ensureConfigFile. Qed.

(** X12: LoadConfig leaves [$HOME] alone; besides the calls of
    ensureConfigFile it only reads the path it is given and decodes into
    its target; and the only objects it can change are the one holding
    the defaults and the target. *)
Theorem LoadConfig_footprint cm path (target : Serializer) w :
  w_home (LoadConfig cm path target w).2 = w_home w
  ∧ (∃ evs,
       w_trace (LoadConfig cm path target w).2 = w_trace w ++ evs
       ∧ Forall (load_event path (DefaultConfigValues (defaults cm)) target)
           evs)
  ∧ (∀ l, DefaultConfigValues (defaults cm) ≠ Some l → target ≠ Some l →
       w_heap (LoadConfig cm path target w).2 !! l = w_heap w !! l).
Proof.
  assert (confined
            (load_event path (DefaultConfigValues (defaults cm)) target)
            (λ l, DefaultConfigValues (defaults cm) = Some l
                  ∨ target = Some l)
            (LoadConfig cm path target)) as Hc.
  { unfold LoadConfig. case_bool_decide; [apply confined_ret |].
    apply confined_bind.
    { eapply confined_mono; [| | apply confined_ensureConfigFile].
      - by intros [].
      - by left. }
    intros err. repeat confined_step; simpl; try by intros.
    intros l ->. by right. }
  destruct (Hc w) as (Hh & Hev & Hheap). split; [done |]. split; [done |].
  intros l Hd Ht. apply Hheap. by intros [|].
Qed.

(** X13: SaveConfig leaves [$HOME] alone; the only calls it makes are the
    encode of the strategy it is given and a write with mode 0644 to the
    remembered path (it never stats, creates a directory or reads); and
    the only object it can change is that strategy. *)
Theorem SaveConfig_footprint cm (config : Serializer) w :
  w_home (SaveConfig cm config w).2 = w_home w
  ∧ (∃ evs,
       w_trace (SaveConfig cm config w).2 = w_trace w ++ evs
       ∧ Forall (save_event (filePath cm) config) evs)
  ∧ (∀ l, config ≠ Some l →
       w_heap (SaveConfig cm config w).2 !! l = w_heap w !! l).
Proof.
  assert (confined (save_event (filePath cm) config) (λ l, config = Some l)
            (SaveConfig cm config)) as Hc.
  { unfold SaveConfig. repeat confined_step; simpl; by intros. }
  apply Hc.
Qed.

End MoreProperties.

Section MoreLawful.
Context {FS : Type} `{!OS FS} `{!OSLaws FS} {Obj : Type} `{!SerializerImpl Obj}.
Implicit Types (w : World FS Obj) (cm : ConfigManager) (d : Defaults).

(** X14: after a call of ensureConfigFile that returned no error, the file
    is there.  If it was there before, the call did nothing but stat it;
    if it was not, the defaults were encoded without error and the file
    now holds exactly the encoded bytes. *)
Theorem ensureConfigFile_success cm path w w' :
  ensureConfigFile cm path w = (Ret None, w') →
  sys_Stat path (w_fs w') = None
  ∧ (sys_Stat path (w_fs w) = None → w' = log (EvStat path None) w)
  ∧ (∀ e, sys_Stat path (w_fs w) = Some e →
       ∃ l data,
         DefaultConfigValues (defaults cm) = Some l
         ∧ EvMarshal l data None ∈ w_trace w'
         ∧ sys_ReadFile path (w_fs w') = (data, None)).
Proof.
  intros Hens. split; [| split].
  - destruct (ensureConfigFile_log _ _ _ _ _ Hens) as (_ & _ & _ & _ & Hs).
    by apply Hs.
  - intros Hstat. rewrite ensureConfigFile_exists in Hens by done.
    by injection Hens as <-.
  - intros e Hstat.
    destruct (sys_MkdirAll (filepath_Dir path) perm_0755 (w_fs w))
      as [fs1 [e1|]] eqn:Hmk.
    { by erewrite ensureConfigFile_mkdir_fails in Hens by done. }
    destruct (DefaultConfigValues (defaults cm)) as [l|] eqn:Hd.
    2:{ by erewrite ensureConfigFile_panics in Hens by eauto. }
    destruct (w_heap w !! l) as [o|] eqn:Hl.
    2:{ by erewrite ensureConfigFile_panics in Hens by eauto. }
    destruct (impl_Marshal o) as [o' [data [e2|]]] eqn:Hm.
    { by erewrite ensureConfigFile_marshal_fails in Hens by done. }
    destruct (sys_WriteFile path data perm_0644 fs1) as [fs2 [e3|]] eqn:Hw;
      erewrite ensureConfigFile_writes in Hens by done; [done |].
    injection Hens as <-. exists l, data. simpl. split; [done |]. split.
    + rewrite elem_of_app. right. by repeat constructor.
    + by eapply write_then_read.
Qed.


(** X15: a load of the remembered path right after a save that returned
    no error finds the file, creates nothing, and hands the target's
    decode exactly the bytes the saved strategy encoded; when the decode
    succeeds the manager is as before.  A save that returned no error was
    not a save to the empty path. *)
Theorem SaveConfig_then_LoadConfig cm s t w w1 o o' bt merr ot ot' uerr :
  w_heap w !! s = Some o →
  impl_Marshal o = (o', (bt, merr)) →
  SaveConfig cm (Some s) w = (Ret None, w1) →
  w_heap w1 !! t = Some ot →
  impl_Unmarshal ot bt = (ot', uerr) →
  filePath cm ≠ ""
  ∧ ∃ r w2,
      LoadConfig cm (filePath cm) (Some t) w1 = (Ret r, w2)
      ∧ w_trace w2 = w_trace w1 ++
          [EvStat (filePath cm) None;
           EvReadFile (filePath cm) bt None;
           EvUnmarshal t bt uerr]
      ∧ w_fs w2 = w_fs w1
      ∧ (uerr = None → r = (cm, None)).
Proof.
  intros Ho Hm Hsave Ht Hu.
  rewrite (SaveConfig_run _ _ _ _ _ _ _ Ho Hm) in Hsave.
  destruct merr as [e|]; [done |].
  destruct (sys_WriteFile (filePath cm) bt perm_0644 (w_fs w))
    as [fs' [e|]] eqn:Hw; [done |].
  injection Hsave as Hw1.
  assert (w_fs w1 = fs') as Hfs by (by rewrite <- Hw1).
  assert (filePath cm ≠ "") as Hp.
  { intros Heq. rewrite Heq in Hw.
    pose proof (write_empty_name bt perm_0644 (w_fs w)) as Hne.
    by rewrite Hw in Hne. }
  split; [done |].
  pose proof (write_then_stat _ _ _ _ _ Hw) as Hstat.
  pose proof (write_then_read _ _ _ _ _ Hw) as Hrd.
  rewrite <- Hfs in Hstat, Hrd.
  pose proof (ensureConfigFile_exists cm (filePath cm) w1 Hstat) as Hens.
  eexists _, _. split.
  { by apply (LoadConfig_after_ensure cm (filePath cm) t w1
                 (log (EvStat (filePath cm) None) w1) bt ot ot' uerr). }
  simpl. rewrite <- app_assoc. simpl. repeat split; try done.
  intros ->. by destruct cm.
Qed.



End MoreLawful.

(** ** MockSerializer *)

Lemma wrap_int_small (z : Z) :
  (- 2 ^ 63 ≤ z < 2 ^ 63)%Z → wrap_int z = z.
Proof.
  intros Hz. unfold wrap_int. rewrite Z.mod_small; lia.
Qed.

(** X19: a MockSerializer counts the decodes it is asked for and nothing
    else moves: after one decode per input, in any number short of the
    range of [int], the counter has grown by the number of inputs, every
    decode has returned the configured error whatever its input, and the
    configured data and errors are as before. *)
Theorem Unmarshal_all_counts (inputs : list bytes) :
  ∀ m : MockSerializer,
    (0 ≤ UnmarshalCalls m)%Z →
    (UnmarshalCalls m + Z.of_nat (length inputs) < 2 ^ 63)%Z →
    UnmarshalCalls (Unmarshal_all m inputs).1
    = (UnmarshalCalls m + Z.of_nat (length inputs))%Z
    ∧ (Unmarshal_all m inputs).2 = replicate (length inputs) (UnmarshalErr m)
    ∧ MarshalData (Unmarshal_all m inputs).1 = MarshalData m
    ∧ MarshalErr (Unmarshal_all m inputs).1 = MarshalErr m
    ∧ UnmarshalErr (Unmarshal_all m inputs).1 = UnmarshalErr m.
Proof.
  induction inputs as [|data rest IH]; intros m H0 Hlt; simpl.
  { repeat split. lia. }
  simpl in Hlt.
  destruct (Unmarshal_all
              {| MarshalData := MarshalData m; MarshalErr := MarshalErr m;
                 UnmarshalErr := UnmarshalErr m;
                 UnmarshalCalls := wrap_int (UnmarshalCalls m + 1) |} rest)
    as [m'' errs] eqn:Hrest.
  specialize (IH {| MarshalData := MarshalData m; MarshalErr := MarshalErr m;
                    UnmarshalErr := UnmarshalErr m;
                    UnmarshalCalls := wrap_int (UnmarshalCalls m + 1) |}).
  rewrite Hrest in IH. simpl in IH.
  rewrite wrap_int_small in IH by lia.
  destruct IH as (Hc & He & Hd & Hme & Hue); [lia.. |].
  simpl. rewrite Hc, He, Hd, Hme, Hue. repeat split. lia.
Qed.


(** ** The further properties at work on the scenarios *)

Lemma Error_forgets_path_witness :
  ConfigError_Error
    (NewError "read config" "/etc/app.conf" (Some (errorString "denied")))
  = ConfigError_Error
      (NewError "read config" "/tmp/other.conf" (Some (errorString "denied"))).
Proof. apply Error_forgets_path; discriminate. Defined.

Lemma LoadConfig_directory_error_witness :
  ∃ c w',
    LoadConfig testapp "/cfg/app.conf" (Some 1) blocked_directory_world
    = (Ret (testapp, Some (configError c)), w')
    ∧ Operation c = "create config directory"
    ∧ Path c = "/cfg"
    ∧ ConfigError_Unwrap c = os_error "mkdir" "/cfg" "not a directory"
    ∧ w_fs w' = w_fs blocked_directory_world.
Proof.
  edestruct (LoadConfig_directory_error (FS := MemFS) (Obj := MockSerializer)
               testapp "/cfg/app.conf" (Some 1) blocked_directory_world)
    as (c & w' & Hrun & Hop & Hpath & Hcause & Hfs & _ & _).
  - discriminate.
  - vm_compute. reflexivity.
  - vm_compute. reflexivity.
  - exists c, w'. split; [exact Hrun |]. split; [exact Hop |].
    split; [exact Hpath |]. split; [exact Hcause | exact Hfs].
Defined.

Lemma LoadConfig_marshal_default_error_witness :
  ∃ c w',
    LoadConfig testapp first_run_path (Some 1) failing_defaults_world
    = (Ret (testapp, Some (configError c)), w')
    ∧ Operation c = "marshal default config"
    ∧ Path c = first_run_path
    ∧ ConfigError_Unwrap c = Some (errorString "encode failed")
    ∧ sys_Stat "/home/user/.config/testapp" (w_fs w') = None.
Proof.
  edestruct (LoadConfig_marshal_default_error (FS := MemFS)
               (Obj := MockSerializer) testapp first_run_path (Some 1)
               failing_defaults_world)
    as (c & w' & Hrun & Hop & Hpath & Hcause & Hfs & _).
  - discriminate.
  - vm_compute. reflexivity.
  - vm_compute. reflexivity.
  - reflexivity.
  - vm_compute. reflexivity.
  - vm_compute. reflexivity.
  - exists c, w'. split; [exact Hrun |]. split; [exact Hop |].
    split; [exact Hpath |]. split; [exact Hcause |].
    rewrite Hfs. vm_compute. reflexivity.
Defined.

Lemma LoadConfig_create_default_error_witness :
  ∃ c w',
    LoadConfig testapp "/cfg/app.conf" (Some 1) unstatable_directory_world
    = (Ret (testapp, Some (configError c)), w')
    ∧ Operation c = "create default config"
    ∧ Path c = "/cfg/app.conf"
    ∧ ConfigError_Unwrap c = os_error "open" "/cfg/app.conf" "is a directory".
Proof.
  edestruct (LoadConfig_create_default_error (FS := MemFS)
               (Obj := MockSerializer) testapp "/cfg/app.conf" (Some 1)
               unstatable_directory_world)
    as (c & w' & Hrun & Hop & Hpath & Hcause & _).
  - discriminate.
  - vm_compute. reflexivity.
  - vm_compute. reflexivity.
  - reflexivity.
  - vm_compute. reflexivity.
  - vm_compute. reflexivity.
  - vm_compute. reflexivity.
  - exists c, w'. split; [exact Hrun |]. split; [exact Hop |].
    split; [exact Hpath | exact Hcause].
Defined.


Lemma LoadConfig_read_error_witness :
  ∃ c w',
    LoadConfig testapp "/etc/app.conf" (Some 1) directory_world
    = (Ret (testapp, Some (configError c)), w')
    ∧ Operation c = "read config"
    ∧ Path c = "/etc/app.conf"
    ∧ ConfigError_Unwrap c = os_error "read" "/etc/app.conf" "is a directory"
    ∧ w_heap w' = w_heap directory_world.
Proof.
  edestruct (LoadConfig_read_error (FS := MemFS) (Obj := MockSerializer)
               testapp "/etc/app.conf" (Some 1) directory_world)
    as (c & w' & Hrun & Hop & Hpath & Hcause & _ & Hheap & _).
  - discriminate.
  - vm_compute. reflexivity.
  - vm_compute. reflexivity.
  - exists c, w'. split; [exact Hrun |]. split; [exact Hop |].
    split; [exact Hpath |]. split; [exact Hcause | exact Hheap].
Defined.

Lemma LoadConfig_nil_target_witness :
  ∃ w',
    LoadConfig testapp first_run_path None first_run_world
    = (Panic nil_dereference, w')
    ∧ sys_ReadFile first_run_path (w_fs w')
      = (bytes_of_string "config data", None).
Proof.
  eexists. split.
  - eapply (LoadConfig_nil_target (FS := MemFS) (Obj := MockSerializer)).
    + discriminate.
    + vm_compute. reflexivity.
    + vm_compute. reflexivity.
  - vm_compute. reflexivity.
Defined.

Lemma run_calls_remembers_witness :
  ∃ cm' errs w',
    run_calls testapp
      [CallLoad "" (Some 1); CallLoad "/etc/app.conf" (Some 1);
       CallSave (Some 0)]
      existing_config_world
    = (Ret (cm', errs), w')
    ∧ defaults cm' = defaults testapp
    ∧ filePath cm' = "/etc/app.conf"
    ∧ length errs = 3.
Proof.
  destruct (run_calls testapp
              [CallLoad "" (Some 1); CallLoad "/etc/app.conf" (Some 1);
               CallSave (Some 0)] existing_config_world)
    as [[[cm' errs]|msg] w'] eqn:Hrun; [| by vm_compute in Hrun].
  destruct (run_calls_remembers (FS := MemFS) (Obj := MockSerializer)
              _ _ _ _ _ _ Hrun) as (Hd & Hp & Hl).
  exists cm', errs, w'. split; [reflexivity |]. split; [exact Hd |].
  split; [| exact Hl].
  rewrite Hp. vm_compute in Hrun. injection Hrun as _ <- _. reflexivity.
Defined.

Lemma ensureConfigFile_success_witness :
  ∃ w',
    ensureConfigFile testapp first_run_path first_run_world = (Ret None, w')
    ∧ sys_Stat first_run_path (w_fs w') = None
    ∧ ∃ l data,
        DefaultConfigValues (defaults testapp) = Some l
        ∧ EvMarshal l data None ∈ w_trace w'
        ∧ sys_ReadFile first_run_path (w_fs w') = (data, None).
Proof.
  destruct (ensureConfigFile testapp first_run_path first_run_world)
    as [r w'] eqn:Hrun.
  assert (r = Ret None) as -> by (vm_compute in Hrun; congruence).
  destruct (ensureConfigFile_success (FS := MemFS) (Obj := MockSerializer)
              _ _ _ _ Hrun) as (Hstat & _ & Hcreated).
  exists w'. split; [reflexivity |]. split; [exact Hstat |].
  eapply Hcreated. vm_compute. reflexivity.
Defined.

Lemma SaveConfig_then_LoadConfig_witness :
  ∃ w1 r w2,
    SaveConfig loaded_testapp (Some 0) existing_config_world = (Ret None, w1)
    ∧ LoadConfig loaded_testapp "/etc/app.conf" (Some 1) w1 = (Ret r, w2)
    ∧ w_trace w2 = w_trace w1 ++
        [EvStat "/etc/app.conf" None;
         EvReadFile "/etc/app.conf" (bytes_of_string "new config") None;
         EvUnmarshal 1 (bytes_of_string "new config") None]
    ∧ r = (loaded_testapp, None).
Proof.
  destruct (SaveConfig loaded_testapp (Some 0) existing_config_world)
    as [r0 w1] eqn:Hsave.
  assert (r0 = (SaveConfig loaded_testapp (Some 0) existing_config_world).1)
    as Hr0 by (by rewrite Hsave).
  assert (w1 = (SaveConfig loaded_testapp (Some 0) existing_config_world).2)
    as Hw1 by (by rewrite Hsave).
  assert (r0 = Ret None) as -> by (rewrite Hr0; vm_compute; reflexivity).
  edestruct (SaveConfig_then_LoadConfig (FS := MemFS) (Obj := MockSerializer)
               loaded_testapp 0 1 existing_config_world w1
               (mock "new config" None None) (mock "new config" None None)
               (bytes_of_string "new config") None (mock "" None None))
    as (_ & r & w2 & Hload & Htr & _ & Hr).
  - vm_compute. reflexivity.
  - reflexivity.
  - exact Hsave.
  - rewrite Hw1. vm_compute. reflexivity.
  - reflexivity.
  - exists w1, r, w2. split; [reflexivity |]. split; [exact Hload |].
    split; [exact Htr | by apply Hr].
Defined.



Lemma Unmarshal_all_counts_witness :
  UnmarshalCalls
    (Unmarshal_all (mock "" None (Some (errorString "parse error")))
       [[]; bytes_of_string "a"; bytes_of_string "b"]).1 = 3%Z
  ∧ (Unmarshal_all (mock "" None (Some (errorString "parse error")))
       [[]; bytes_of_string "a"; bytes_of_string "b"]).2
    = [Some (errorString "parse error"); Some (errorString "parse error");
       Some (errorString "parse error")].
Proof.
  destruct (Unmarshal_all_counts
              [[]; bytes_of_string "a"; bytes_of_string "b"]
              (mock "" None (Some (errorString "parse error"))))
    as (Hc & He & _); [simpl; lia | simpl; lia |].
  split; [exact Hc | exact He].
Defined.

